(** * split_engine.py: section extraction and header harvesting

    A shallow embedding of [src-tauri/split_engine.py].  Python [str]
    values are modelled as [string]; a character is a code point of the
    Latin-1 range (U+0000 to U+00FF), which is what [ascii] can hold.
    Lists of lines are [list string] with stdpp's lookup, [take] and
    [drop]; the file system touched by [main] is a [gmap] from paths to
    file contents. *)

From Stdlib Require Import Ascii String List Arith Lia Bool.
From stdpp Require Import base option list strings gmap.

Local Open Scope string_scope.

(** ** Python string primitives *)

Module PyStr.

(** The line separator ['\n']. *)
Definition LF : ascii := "010"%char.

(** [str.startswith(prefix)]. *)
Definition startswith (s pre : string) : bool := String.prefix pre s.

(** [needle in haystack] for two strings: substring containment. *)
Fixpoint contains (needle hay : string) : bool :=
  String.prefix needle hay ||
  match hay with
  | EmptyString => false
  | String _ rest => contains needle rest
  end.

(** [str.isspace] on one code point below 256: the characters that
    [str.strip()] removes. *)
Definition isspace (c : ascii) : bool :=
  let n := nat_of_ascii c in
  (((9 <=? n) && (n <=? 13)) || ((28 <=? n) && (n <=? 32))
   || (n =? 133) || (n =? 160))%nat.

(** [str.lstrip()]. *)
Fixpoint lstrip (s : string) : string :=
  match s with
  | EmptyString => EmptyString
  | String c rest => if isspace c then lstrip rest else s
  end.

(** [str.rstrip()]. *)
Fixpoint rstrip (s : string) : string :=
  match s with
  | EmptyString => EmptyString
  | String c rest =>
      match rstrip rest with
      | EmptyString => if isspace c then EmptyString else String c EmptyString
      | r => String c r
      end
  end.

(** [str.strip()]. *)
Definition strip (s : string) : string := rstrip (lstrip s).

(** Truthiness of a string: non-empty. *)
Definition truthy (s : string) : bool :=
  match s with EmptyString => false | String _ _ => true end.

(** [s.split(sep)] for a one-character separator: never the empty list,
    the empty string gives one empty field. *)
Fixpoint split (sep : ascii) (s : string) : list string :=
  match s with
  | EmptyString => [EmptyString]
  | String c rest =>
      if Ascii.eqb c sep then EmptyString :: split sep rest
      else match split sep rest with
           | [] => [String c EmptyString]
           | field :: fields => String c field :: fields
           end
  end.

(** [sep.join(parts)] for a one-character separator. *)
Fixpoint join (sep : ascii) (parts : list string) : string :=
  match parts with
  | [] => EmptyString
  | [p] => p
  | p :: rest => p +:+ String sep (join sep rest)
  end.

(** A string that holds no separator: what a field of [split] is. *)
Fixpoint sep_free (sep : ascii) (s : string) : bool :=
  match s with
  | EmptyString => true
  | String c rest => negb (Ascii.eqb c sep) && sep_free sep rest
  end.

(** [parts[a:b]] for non-negative [a] and [b]. *)
Definition slice {A} (l : list A) (a b : nat) : list A := drop a (take b l).

End PyStr.

Import PyStr.

(** ** The two text algorithms of the script *)

(** A line the loop of [extract_imports] appends: the first test of its
    [if]. *)
Definition is_header_line (line : string) : bool :=
  startswith line "use " || startswith line "//".

(** The [elif] test of the loop, reached when the first test failed: the
    loop breaks on it. *)
Definition breaks_scan (line : string) : bool :=
  truthy (strip line) && negb (startswith (strip line) "//").

(** The [for] loop of [extract_imports], with the list [imports] it appends
    to as explicit state; [break] returns the state as it is. *)
Fixpoint imports_loop (imports lines : list string) : list string :=
  match lines with
  | [] => imports
  | line :: rest =>
      if is_header_line line then imports_loop (imports ++ [line])%list rest
      else if breaks_scan line then imports
      else imports_loop imports rest
  end.

Definition extract_imports (content : string) : string :=
  let lines := split LF content in
  let imports := imports_loop [] lines in
  join LF imports.

(** The first loop of [extract_section]: [enumerate(lines)] from index [i],
    stopping at the first line that contains the marker. *)
Fixpoint find_start (marker : string) (lines : list string) (i : nat)
  : option nat :=
  match lines with
  | [] => None
  | line :: rest =>
      if contains marker line then Some i else find_start marker rest (S i)
  end.

(** The second loop: [for i in range(...)] over a list of indices, reading
    [lines[i]]; an index out of range would raise, which [range] up to
    [len(lines)] never produces. *)
Fixpoint find_end (marker : string) (lines : list string) (idxs : list nat)
  : option nat :=
  match idxs with
  | [] => None
  | i :: rest =>
      match lines !! i with
      | Some line => if contains marker line then Some i
                     else find_end marker lines rest
      | None => None
      end
  end.

(** [range(a, b)]. *)
Definition range (a b : nat) : list nat := seq a (b - a).

Definition extract_section (content start_marker : string)
    (end_marker : option string) : string :=
  let lines := split LF content in
  match find_start start_marker lines 0 with
  | None => EmptyString
  | Some start_idx =>
      match end_marker with
      | None => join LF (drop start_idx lines)
      | Some end_marker =>
          match find_end end_marker lines
                  (range (start_idx + 1) (length lines)) with
          | None => join LF (drop start_idx lines)
          | Some end_idx => join LF (slice lines start_idx end_idx)
          end
      end
  end.

(** ** The orchestrator and its effects *)

(** A path as [pathlib] composes it: the list of its components. *)
Abbreviation path := (list string).

(** What [main] can touch: the files it reads and writes, the directories
    [os.makedirs] creates, and the lines printed so far. *)
Record World : Type := mkWorld {
  files : gmap path string;
  dirs : gset path;
  stdout : list string
}.

(** An uncaught exception ends the run. *)
Inductive exn : Type :=
| FileNotFoundError (p : path).

(** Computations over the world that return a value or raise. *)
Definition IO (A : Type) : Type := World -> World * (exn + A).

#[export] Instance IO_ret : MRet IO := fun A (a : A) w => (w, inr a).

#[export] Instance IO_bind : MBind IO := fun A B (k : A -> IO B) (m : IO A) w =>
  match m w with
  | (w', inl e) => (w', inl e)
  | (w', inr a) => k a w'
  end.

(** [print(line)]. *)
Definition print (line : string) : IO unit :=
  fun w => (mkWorld (files w) (dirs w) (stdout w ++ [line])%list, inr tt).

(** [read_file(path)]: the whole file as text, or the error of [open]. *)
Definition read_file (p : path) : IO string :=
  fun w =>
    match files w !! p with
    | Some text => (w, inr text)
    | None => (w, inl (FileNotFoundError p))
    end.

(** [os.path.dirname]. *)
Definition dirname (p : path) : path := take (length p - 1) p.

(** The directories [os.makedirs(d, exist_ok=True)] leaves in place: [d]
    and each of its ancestors. *)
Definition makedirs (d : path) (ds : gset path) : gset path :=
  ds ∪ list_to_set (map (fun n => take n d) (seq 0 (S (length d)))).

(** [write_file(path, content)]: parent directories first, then the file,
    overwritten as a whole. *)
Definition write_file (p : path) (content : string) : IO unit :=
  fun w =>
    (mkWorld (<[p := content]> (files w)) (makedirs (dirname p) (dirs w))
             (stdout w), inr tt).

(** [str(path)]. *)
Definition path_str (p : path) : string := join "/"%char p.

(** The double quote character, as a string. *)
Definition DQ : string := String "034"%char EmptyString.

(** The literal [common_imports] of [main], line by line. *)
Definition common_imports : string :=
  join LF [
    "use std::path::{Path, PathBuf};";
    "use anyhow::{Context, Result};";
    "use crate::ffui_core::domain::*;";
    "use crate::ffui_core::settings::AppSettings;";
    "use super::state::*;";
    EmptyString
  ].

(** The literal [mod_content] of [main]: the text of [engine/mod.rs], line by line; the last, empty field is the final line break. *)
Definition mod_content : string :=
  join LF [
    "//! Transcoding engine split into modular components.";
    "//!";
    "//! - state: Engine state management, queue persistence, listeners";
    "//! - worker: Worker thread pool and job scheduling";
    "//! - ffmpeg_args: FFmpeg command-line argument generation";
    "//! - job_runner: Job execution logic, progress tracking";
    "//! - smart_scan: Smart Scan batch processing";
    "//! - tests: All test cases";
    EmptyString;
    "mod state;";
    "mod worker;";
    "mod ffmpeg_args;";
    "mod job_runner;";
    "mod smart_scan;";
    EmptyString;
    "#[cfg(test)]";
    "mod tests;";
    EmptyString;
    "use std::collections::{HashMap, HashSet, VecDeque, hash_map::DefaultHasher};";
    "use std::fs;";
    "use std::hash::{Hash, Hasher};";
    "use std::path::{Path, PathBuf};";
    "use std::sync::atomic::{AtomicU64, Ordering};";
    "use std::sync::{Arc, Mutex};";
    "use std::time::{SystemTime, UNIX_EPOCH};";
    EmptyString;
    "use anyhow::{Context, Result};";
    EmptyString;
    "use crate::ffui_core::domain::{";
    "    AutoCompressProgress, AutoCompressResult, FFmpegPreset, JobSource, JobStatus, JobType,";
    "    MediaInfo, QueueState, SmartScanConfig, TranscodeJob,";
    "};";
    "use crate::ffui_core::monitor::{CpuUsageSnapshot, GpuUsageSnapshot, sample_cpu_usage, sample_gpu_usage};";
    "use crate::ffui_core::settings::{self, AppSettings, DownloadedToolInfo, DownloadedToolState};";
    "use crate::ffui_core::tools::{ExternalToolKind, ExternalToolStatus, ensure_tool_available, last_tool_download_metadata, tool_status};";
    EmptyString;
    "pub(crate) use state::{Inner, EngineState, restore_jobs_from_snapshot};";
    "use state::{snapshot_queue_state, notify_queue_listeners, restore_jobs_from_persisted_queue};";
    EmptyString;
    "#[derive(Clone)]";
    "pub struct TranscodingEngine {";
    "    inner: Arc<Inner>,";
    "}";
    EmptyString;
    "impl TranscodingEngine {";
    "    pub fn new() -> Result<Self> {";
    "        let presets = settings::load_presets().unwrap_or_default();";
    "        let settings = settings::load_settings().unwrap_or_default();";
    "        let inner = Arc::new(Inner::new(presets, settings));";
    "        restore_jobs_from_persisted_queue(&inner);";
    "        worker::spawn_worker(inner.clone());";
    "        Ok(Self { inner })";
    "    }";
    EmptyString;
    "    fn next_job_id(&self) -> String {";
    "        self.inner";
    "            .next_job_id";
    "            .fetch_add(1, Ordering::SeqCst)";
    "            .to_string()";
    "    }";
    EmptyString;
    "    pub fn queue_state(&self) -> QueueState {";
    "        snapshot_queue_state(&self.inner)";
    "    }";
    EmptyString;
    "    pub fn register_queue_listener<F>(&self, listener: F)";
    "    where";
    "        F: Fn(QueueState) + Send + Sync + 'static,";
    "    {";
    "        let mut listeners = self";
    "            .inner";
    "            .queue_listeners";
    "            .lock()";
    ("            .expect(" +:+ DQ +:+ "queue listeners lock poisoned" +:+ DQ +:+ ");");
    "        listeners.push(Arc::new(listener));";
    "    }";
    EmptyString;
    "    pub fn register_smart_scan_listener<F>(&self, listener: F)";
    "    where";
    "        F: Fn(AutoCompressProgress) + Send + Sync + 'static,";
    "    {";
    "        let mut listeners = self";
    "            .inner";
    "            .smart_scan_listeners";
    "            .lock()";
    ("            .expect(" +:+ DQ +:+ "smart scan listeners lock poisoned" +:+ DQ +:+ ");");
    "        listeners.push(Arc::new(listener));";
    "    }";
    EmptyString;
    "    fn notify_listeners(&self) {";
    "        notify_queue_listeners(&self.inner);";
    "    }";
    EmptyString;
    "    pub fn presets(&self) -> Vec<FFmpegPreset> {";
    ("        let state = self.inner.state.lock().expect(" +:+ DQ +:+ "engine state poisoned" +:+ DQ +:+ ");");
    "        state.presets.clone()";
    "    }";
    EmptyString;
    "    pub fn save_preset(&self, preset: FFmpegPreset) -> Result<Vec<FFmpegPreset>> {";
    ("        let mut state = self.inner.state.lock().expect(" +:+ DQ +:+ "engine state poisoned" +:+ DQ +:+ ");");
    "        if let Some(existing) = state.presets.iter_mut().find(|p| p.id == preset.id) {";
    "            *existing = preset;";
    "        } else {";
    "            state.presets.push(preset);";
    "        }";
    "        settings::save_presets(&state.presets)?;";
    "        Ok(state.presets.clone())";
    "    }";
    EmptyString;
    "    pub fn delete_preset(&self, preset_id: &str) -> Result<Vec<FFmpegPreset>> {";
    ("        let mut state = self.inner.state.lock().expect(" +:+ DQ +:+ "engine state poisoned" +:+ DQ +:+ ");");
    "        state.presets.retain(|p| p.id != preset_id);";
    "        settings::save_presets(&state.presets)?;";
    "        Ok(state.presets.clone())";
    "    }";
    EmptyString;
    "    pub fn settings(&self) -> AppSettings {";
    ("        let state = self.inner.state.lock().expect(" +:+ DQ +:+ "engine state poisoned" +:+ DQ +:+ ");");
    "        state.settings.clone()";
    "    }";
    EmptyString;
    "    pub fn save_settings(&self, new_settings: AppSettings) -> Result<AppSettings> {";
    ("        let mut state = self.inner.state.lock().expect(" +:+ DQ +:+ "engine state poisoned" +:+ DQ +:+ ");");
    "        state.settings = new_settings.clone();";
    "        settings::save_settings(&state.settings)?;";
    "        Ok(new_settings)";
    "    }";
    EmptyString;
    "    fn record_tool_download(&self, kind: ExternalToolKind, binary_path: &str) {";
    "        job_runner::record_tool_download_with_inner(&self.inner, kind, binary_path);";
    "    }";
    EmptyString;
    "    // All other public methods forward to appropriate modules";
    "    pub fn enqueue_transcode_job(";
    "        &self,";
    "        filename: String,";
    "        job_type: JobType,";
    "        source: JobSource,";
    "        original_size_mb: f64,";
    "        original_codec: Option<String>,";
    "        preset_id: String,";
    "    ) -> TranscodeJob {";
    "        worker::enqueue_transcode_job(";
    "            &self.inner,";
    "            filename,";
    "            job_type,";
    "            source,";
    "            original_size_mb,";
    "            original_codec,";
    "            preset_id,";
    "        )";
    "    }";
    EmptyString;
    "    pub fn cancel_job(&self, job_id: &str) -> bool {";
    "        worker::cancel_job(&self.inner, job_id)";
    "    }";
    EmptyString;
    "    pub fn wait_job(&self, job_id: &str) -> bool {";
    "        worker::wait_job(&self.inner, job_id)";
    "    }";
    EmptyString;
    "    pub fn resume_job(&self, job_id: &str) -> bool {";
    "        worker::resume_job(&self.inner, job_id)";
    "    }";
    EmptyString;
    "    pub fn restart_job(&self, job_id: &str) -> bool {";
    "        worker::restart_job(&self.inner, job_id)";
    "    }";
    EmptyString;
    "    pub fn reorder_waiting_jobs(&self, ordered_ids: Vec<String>) -> bool {";
    "        worker::reorder_waiting_jobs(&self.inner, ordered_ids)";
    "    }";
    EmptyString;
    "    pub fn cpu_usage(&self) -> CpuUsageSnapshot {";
    "        sample_cpu_usage()";
    "    }";
    EmptyString;
    "    pub fn gpu_usage(&self) -> GpuUsageSnapshot {";
    "        sample_gpu_usage()";
    "    }";
    EmptyString;
    "    pub fn external_tool_statuses(&self) -> Vec<ExternalToolStatus> {";
    ("        let state = self.inner.state.lock().expect(" +:+ DQ +:+ "engine state poisoned" +:+ DQ +:+ ");");
    "        let tools = &state.settings.tools;";
    "        vec![";
    "            tool_status(ExternalToolKind::Ffmpeg, tools),";
    "            tool_status(ExternalToolKind::Ffprobe, tools),";
    "            tool_status(ExternalToolKind::Avifenc, tools),";
    "        ]";
    "    }";
    EmptyString;
    "    pub fn smart_scan_defaults(&self) -> SmartScanConfig {";
    ("        let state = self.inner.state.lock().expect(" +:+ DQ +:+ "engine state poisoned" +:+ DQ +:+ ");");
    "        state.settings.smart_scan_defaults.clone()";
    "    }";
    EmptyString;
    "    pub fn update_smart_scan_defaults(&self, config: SmartScanConfig) -> Result<SmartScanConfig> {";
    ("        let mut state = self.inner.state.lock().expect(" +:+ DQ +:+ "engine state poisoned" +:+ DQ +:+ ");");
    "        state.settings.smart_scan_defaults = config.clone();";
    "        settings::save_settings(&state.settings)?;";
    "        Ok(config)";
    "    }";
    EmptyString;
    "    pub fn run_auto_compress(";
    "        &self,";
    "        root_path: String,";
    "        config: SmartScanConfig,";
    "    ) -> Result<AutoCompressResult> {";
    "        smart_scan::run_auto_compress(&self.inner, self.clone(), root_path, config)";
    "    }";
    EmptyString;
    "    pub fn smart_scan_batch_summary(&self, batch_id: &str) -> Option<AutoCompressResult> {";
    "        smart_scan::smart_scan_batch_summary(&self.inner, batch_id)";
    "    }";
    EmptyString;
    "    pub fn inspect_media(&self, path: String) -> Result<String> {";
    "        job_runner::inspect_media(&self.inner, path)";
    "    }";
    "}";
    EmptyString;
    "fn current_time_millis() -> u64 {";
    "    SystemTime::now()";
    "        .duration_since(UNIX_EPOCH)";
    "        .unwrap_or_default()";
    "        .as_millis() as u64";
    "}";
    EmptyString
  ].

(** [main()], with the directory of the script as [base_dir]. *)
Definition main (base_dir : path) : IO unit :=
  let engine_rs := (base_dir ++ ["src"; "ffui_core"; "engine.rs"])%list in
  let engine_dir := (base_dir ++ ["src"; "ffui_core"; "engine"])%list in
  print ("Reading " +:+ path_str engine_rs +:+ "...") ;;
  content ← read_file engine_rs;
  let common_imports := common_imports in
  let worker_section :=
    extract_section content "fn spawn_worker"
                    (Some "fn process_transcode_job") in
  print "Creating engine/mod.rs..." ;;
  let mod_content := mod_content in
  write_file (engine_dir ++ ["mod.rs"])%list mod_content ;;
  print "Created engine/mod.rs" ;;
  print "Manual splitting required due to file complexity." ;;
  print "Please continue with manual file extraction or use a proper AST parser.".

(** The manifest a run leaves behind, if any. *)
Definition manifest_of (base_dir : path) (w : World) : option string :=
  files w !! (base_dir ++ ["src"; "ffui_core"; "engine"; "mod.rs"])%list.

(** ** Vocabulary of the statements *)

(** Index [i] holds the first line, from index [lo] on, that contains
    [marker]. *)
Definition first_at (marker : string) (lines : list string) (lo i : nat)
  : Prop :=
  lo <= i /\
  (exists line, lines !! i = Some line /\ contains marker line = true) /\
  forall j line, lo <= j < i -> lines !! j = Some line ->
                 contains marker line = false.

(** No line contains [marker]. *)
Definition absent (marker : string) (lines : list string) : Prop :=
  Forall (fun line => contains marker line = false) lines.

(** A line on which the loop of [extract_imports] stops: the first test
    fails and the [elif] test holds. *)
Definition stops_scan (line : string) : bool :=
  negb (is_header_line line) && breaks_scan line.

(** An import declaration in the wording of the specification: the line
    begins with the token after left-trimming. *)
Definition spec_import_line (line : string) : bool :=
  startswith (lstrip line) "use ".

(** A comment line in the wording of the specification. *)
Definition spec_comment_line (line : string) : bool :=
  startswith (lstrip line) "//".

(** A terminating line in the wording of the specification: non-blank, not
    a comment and not an import declaration. *)
Definition spec_terminates (line : string) : bool :=
  truthy (strip line) && negb (spec_comment_line line)
  && negb (spec_import_line line).

(** A line that is entirely whitespace (the empty line included). *)
Definition blank_line (line : string) : bool := negb (truthy (strip line)).

(** A comment preceded by leading whitespace. *)
Definition indented_comment (line : string) : bool :=
  negb (startswith line "//") && startswith (lstrip line) "//".

(** An import declaration preceded by leading whitespace. *)
Definition indented_import (line : string) : bool :=
  negb (startswith line "use ") && startswith (lstrip line) "use ".

(** The number of occurrences of the character [sep] in [s]. *)
Fixpoint count_sep (sep : ascii) (s : string) : nat :=
  match s with
  | EmptyString => 0
  | String c rest => (if Ascii.eqb c sep then 1 else 0) + count_sep sep rest
  end.

(** The world a computation leaves, and what it returns or raises. *)
Definition world_after {A} (r : World * (exn + A)) : World := fst r.

(** * Properties *)

(** ** Splitting and joining lines *)

Section SplitJoin.
Variable sep : ascii.

Lemma split_not_nil (s : string) : split sep s <> [].
Proof.
  destruct s as [|c rest]; simpl; [discriminate|].
  destruct (Ascii.eqb c sep); [discriminate|].
  destruct (split sep rest); discriminate.
Qed.

Lemma join_cons_cons (p q : string) (rest : list string) :
  join sep (p :: q :: rest) = p +:+ String sep (join sep (q :: rest)).
Proof. reflexivity. Qed.

Lemma join_split (s : string) : join sep (split sep s) = s.
Proof.
  induction s as [|c rest IH]; [reflexivity|].
  simpl split. pose proof (split_not_nil rest) as Hne.
  destruct (Ascii.eqb c sep) eqn:Hc.
  - apply Ascii.eqb_eq in Hc. subst c.
    destruct (split sep rest) as [|q fields] eqn:E; [contradiction|].
    rewrite join_cons_cons, IH. reflexivity.
  - destruct (split sep rest) as [|q fields] eqn:E; [contradiction|].
    rewrite <- IH. destruct fields; reflexivity.
Qed.

Lemma split_sep_free (s : string) :
  Forall (fun field => sep_free sep field = true) (split sep s).
Proof.
  induction s as [|c rest IH]; simpl.
  - repeat constructor.
  - destruct (Ascii.eqb c sep) eqn:Hc.
    + constructor; [reflexivity|exact IH].
    + destruct (split sep rest) as [|q fields]; simpl.
      * repeat constructor. simpl. now rewrite Hc.
      * inversion IH; subst. constructor; [|assumption].
        simpl. now rewrite Hc.
Qed.

Lemma split_sep_free_id (s : string) :
  sep_free sep s = true -> split sep s = [s].
Proof.
  induction s as [|c rest IH]; simpl; [reflexivity|].
  destruct (Ascii.eqb c sep); simpl; [discriminate|].
  intros H. now rewrite (IH H).
Qed.

Lemma split_app_sep (p rest : string) :
  sep_free sep p = true ->
  split sep (p +:+ String sep rest) = p :: split sep rest.
Proof.
  induction p as [|c p IH]; simpl.
  - intros _. now rewrite Ascii.eqb_refl.
  - destruct (Ascii.eqb c sep); simpl; [discriminate|].
    intros H. now rewrite (IH H).
Qed.

Lemma split_join (parts : list string) :
  parts <> [] ->
  Forall (fun field => sep_free sep field = true) parts ->
  split sep (join sep parts) = parts.
Proof.
  induction parts as [|p rest IH]; [congruence|].
  intros _ Hall. inversion Hall as [|? ? Hp Hrest]; subst.
  destruct rest as [|q rest].
  - simpl. now apply split_sep_free_id.
  - rewrite join_cons_cons, split_app_sep by assumption.
    f_equal. apply IH; [discriminate|assumption].
Qed.

End SplitJoin.

(** C8. The line indexing round-trips: joining [text.split('\n')] with
    ['\n'] gives [text] back, for every [text]; the empty string splits into
    one empty line. *)
Theorem line_index_roundtrip (text : string) :
  join LF (split LF text) = text /\ split LF EmptyString = [EmptyString].
Proof.
  split; [apply join_split|reflexivity].
Qed.

(** ** The section extractor *)

Section Markers.
Variable marker : string.

Lemma first_at_tail (line : string) (lines : list string) (i : nat) :
  first_at marker (line :: lines) 0 (S i) ->
  contains marker line = false /\ first_at marker lines 0 i.
Proof.
  intros (_ & (l & Hl & Hc) & Hbefore). split.
  - apply (Hbefore 0 line); [lia|reflexivity].
  - split; [lia|]. split; [now exists l|].
    intros j l' Hj Hl'. apply (Hbefore (S j) l'); [lia|exact Hl'].
Qed.

Lemma find_start_first (lines : list string) :
  forall i k, first_at marker lines 0 i ->
              find_start marker lines k = Some (k + i).
Proof.
  induction lines as [|line lines IH]; intros i k Hfirst.
  - destruct Hfirst as (_ & (l & Hl & _) & _). discriminate.
  - destruct i as [|i]; simpl.
    + destruct Hfirst as (_ & (l & Hl & Hc) & _).
      injection Hl as ->. rewrite Hc. f_equal. lia.
    + apply first_at_tail in Hfirst as [Hc Hfirst].
      rewrite Hc, (IH i (S k) Hfirst). f_equal. lia.
Qed.

Lemma find_start_Some (lines : list string) :
  forall k i, find_start marker lines k = Some i ->
              exists i', i = k + i' /\ first_at marker lines 0 i'.
Proof.
  induction lines as [|line lines IH]; intros k i; simpl; [discriminate|].
  destruct (contains marker line) eqn:Hc.
  - intros [= <-]. exists 0. split; [lia|].
    split; [lia|]. split; [now exists line|]. intros j l Hj. lia.
  - intros Hfind. destruct (IH _ _ Hfind) as (i' & -> & Hi' & (l & Hl & Hcl) & Hb).
    exists (S i'). split; [lia|]. split; [lia|]. split; [now exists l|].
    intros [|j] l' Hj Hl'.
    + injection Hl' as <-. exact Hc.
    + apply (Hb j l'); [lia|exact Hl'].
Qed.

Lemma find_start_None (lines : list string) (k : nat) :
  find_start marker lines k = None <-> absent marker lines.
Proof.
  revert k. induction lines as [|line lines IH]; intros k; simpl.
  - split; [constructor|reflexivity].
  - destruct (contains marker line) eqn:Hc.
    + split; [discriminate|]. intros Habs. inversion Habs; congruence.
    + rewrite IH. split; [now constructor|]. intros Habs. now inversion Habs.
Qed.

Lemma find_end_Some (lines : list string) :
  forall n a i, find_end marker lines (seq a n) = Some i ->
                first_at marker lines a i /\ i < a + n.
Proof.
  induction n as [|n IH]; intros a i; simpl; [discriminate|].
  destruct (lines !! a) as [line|] eqn:Hl; [|discriminate].
  destruct (contains marker line) eqn:Hc.
  - intros [= <-]. split; [|lia].
    split; [lia|]. split; [now exists line|]. intros j l Hj. lia.
  - intros Hfind. destruct (IH _ _ Hfind) as ((Hle & Hline & Hb) & Hlt).
    split; [|lia]. split; [lia|]. split; [exact Hline|].
    intros j l Hj Hjl. destruct (decide (j = a)) as [->|Hne].
    + congruence.
    + apply (Hb j l); [lia|exact Hjl].
Qed.

Lemma find_end_None (lines : list string) :
  forall n a, find_end marker lines (seq a n) = None ->
              a + n <= length lines ->
              forall j line, a <= j < a + n -> lines !! j = Some line ->
                             contains marker line = false.
Proof.
  induction n as [|n IH]; intros a; simpl; [intros; lia|].
  intros Hfind Hlen j l Hj Hjl.
  destruct (lines !! a) as [line|] eqn:Hl.
  - destruct (contains marker line) eqn:Hc; [discriminate|].
    destruct (decide (j = a)) as [->|Hne]; [congruence|].
    apply (IH (S a) Hfind) with (j := j); [lia|lia|exact Hjl].
  - apply lookup_ge_None in Hl. lia.
Qed.

End Markers.

Lemma contains_empty_hay (marker : string) :
  marker <> EmptyString -> contains marker EmptyString = false.
Proof. destruct marker; [congruence|reflexivity]. Qed.

Lemma join_head_nonempty (sep : ascii) (p : string) (rest : list string) :
  p <> EmptyString -> join sep (p :: rest) <> EmptyString.
Proof.
  destruct p as [|c p]; [congruence|]. intros _.
  destruct rest; simpl; discriminate.
Qed.

Lemma slice_lookup {A} (l : list A) (a b k : nat) :
  slice l a b !! k = if decide (a + k < b) then l !! (a + k) else None.
Proof.
  unfold slice. rewrite lookup_drop.
  destruct (decide (a + k < b)) as [Hlt|Hge].
  - now apply lookup_take_lt.
  - apply lookup_take_ge. lia.
Qed.

Lemma slice_head {A} (l : list A) (a b : nat) (x : A) :
  a < b -> l !! a = Some x -> exists rest, slice l a b = x :: rest.
Proof.
  intros Hab Hx. pose proof (slice_lookup l a b 0) as H0.
  rewrite Nat.add_0_r in H0. rewrite decide_True in H0 by exact Hab.
  destruct (slice l a b) as [|y rest]; simpl in H0; [congruence|].
  exists rest. congruence.
Qed.

Lemma drop_head {A} (l : list A) (a : nat) (x : A) :
  l !! a = Some x -> exists rest, drop a l = x :: rest.
Proof.
  intros Hx. exists (drop (S a) l). now apply drop_S.
Qed.

(** What [extract_section] returns once the start marker has been found at
    [start_idx]: the three [return]s after the first loop. *)
Lemma extract_section_found (content start_marker : string)
    (end_marker : option string) (start_idx : nat) :
  first_at start_marker (split LF content) 0 start_idx ->
  extract_section content start_marker end_marker =
    let lines := split LF content in
    match end_marker with
    | None => join LF (drop start_idx lines)
    | Some em =>
        match find_end em lines (range (start_idx + 1) (length lines)) with
        | None => join LF (drop start_idx lines)
        | Some end_idx => join LF (slice lines start_idx end_idx)
        end
    end.
Proof.
  intros Hfirst. unfold extract_section.
  rewrite (find_start_first _ _ _ 0 Hfirst). reflexivity.
Qed.

(** C1, as amended.  If no line contains the start marker, [extract_section]
    returns the empty string, whatever the end marker; and for a non-empty
    start marker an empty result means that no line contains it. *)
Theorem section_empty_iff_absent (content start_marker : string)
    (end_marker : option string) :
  (absent start_marker (split LF content) ->
   extract_section content start_marker end_marker = EmptyString) /\
  (start_marker <> EmptyString ->
   extract_section content start_marker end_marker = EmptyString ->
   absent start_marker (split LF content)).
Proof.
  split.
  - intros Habs. unfold extract_section.
    now rewrite (proj2 (find_start_None _ _ 0) Habs).
  - intros Hne Hres. apply (find_start_None _ _ 0).
    destruct (find_start start_marker (split LF content) 0) as [si|] eqn:E;
      [exfalso|reflexivity].
    apply find_start_Some in E as (i & -> & Hfirst). simpl in Hres.
    rewrite (extract_section_found _ _ _ _ Hfirst) in Hres.
    destruct Hfirst as (_ & (line & Hline & Hc) & _).
    assert (line <> EmptyString) as Hline_ne.
    { intros ->. rewrite contains_empty_hay in Hc by exact Hne. discriminate. }
    destruct (drop_head _ _ _ Hline) as (rest & Hdrop).
    cbv zeta in Hres. rewrite Hdrop in Hres.
    destruct end_marker as [em|];
      [|exact (join_head_nonempty _ _ _ Hline_ne Hres)].
    destruct (find_end em _ _) as [ei|] eqn:Eend;
      [|exact (join_head_nonempty _ _ _ Hline_ne Hres)].
    apply find_end_Some in Eend as [(Hle & _) _].
    destruct (slice_head (split LF content) i ei line) as (rest' & Hs);
      [lia|exact Hline|].
    rewrite Hs in Hres. exact (join_head_nonempty _ _ _ Hline_ne Hres).
Qed.

Lemma section_empty_iff_absent_witness :
  extract_section (join LF ["a"; "b"]) "zzz" None = EmptyString /\
  absent "zzz" (split LF (join LF ["a"; "b"])).
Proof.
  split.
  - apply (proj1 (section_empty_iff_absent (join LF ["a"; "b"]) "zzz" None)).
    vm_compute. repeat constructor.
  - apply (proj2 (section_empty_iff_absent (join LF ["a"; "b"]) "zzz" None)).
    + discriminate.
    + reflexivity.
Defined.

(** C1, as stated, fails for the empty start marker: the only line of the
    empty document contains it, and the section found there is empty. *)
Lemma section_empty_iff_absent_counterexample :
  ~ (extract_section EmptyString EmptyString None = EmptyString <->
     absent EmptyString (split LF EmptyString)).
Proof.
  intros [Himp _]. specialize (Himp eq_refl).
  inversion Himp as [|? ? Hc _]. discriminate Hc.
Qed.

(** C2. When the start marker is first found at [start_idx] and some later
    line contains the end marker, the result is the lines of
    [[start_idx, end_idx)] joined with ['\n'], [end_idx] being the first
    index after [start_idx] whose line contains the end marker; the line at
    [start_idx] is not looked at for the end marker. *)
Theorem section_bounded (content start_marker end_marker : string)
    (start_idx : nat) :
  first_at start_marker (split LF content) 0 start_idx ->
  (exists j line, start_idx < j /\ split LF content !! j = Some line /\
                  contains end_marker line = true) ->
  exists end_idx,
    first_at end_marker (split LF content) (S start_idx) end_idx /\
    extract_section content start_marker (Some end_marker) =
      join LF (slice (split LF content) start_idx end_idx).
Proof.
  intros Hfirst (j & line & Hj & Hline & Hc).
  rewrite (extract_section_found _ _ _ _ Hfirst). cbv zeta.
  unfold range. replace (start_idx + 1) with (S start_idx) by lia.
  destruct (find_end end_marker _ _) as [ei|] eqn:Eend.
  - apply find_end_Some in Eend as [Hend _]. now exists ei.
  - exfalso. apply lookup_lt_Some in Hline as Hlt.
    rewrite (find_end_None _ _ _ _ Eend) with (j := j) (line := line) in Hc;
      [discriminate|lia|lia|exact Hline].
Qed.

Lemma section_bounded_witness :
  exists end_idx,
    first_at "END" (split LF (join LF ["x"; "START"; "mid"; "END"; "y"]))
             2 end_idx /\
    extract_section (join LF ["x"; "START"; "mid"; "END"; "y"])
                    "START" (Some "END") =
      join LF (slice (split LF (join LF ["x"; "START"; "mid"; "END"; "y"]))
                     1 end_idx).
Proof.
  apply (section_bounded (join LF ["x"; "START"; "mid"; "END"; "y"])
                         "START" "END" 1).
  - split; [lia|]. split; [now exists "START"|].
    intros [|j] line Hj Hl; [|lia]. now injection Hl as <-.
  - exists 3, "END". split; [lia|]. split; reflexivity.
Defined.

(** C3. When the start marker is found and no line after [start_idx]
    contains the given end marker, the result is the one obtained without an
    end marker: the lines from [start_idx] to the end, joined with ['\n']. *)
Theorem section_end_marker_missing (content start_marker end_marker : string)
    (start_idx : nat) :
  first_at start_marker (split LF content) 0 start_idx ->
  (forall j line, start_idx < j -> split LF content !! j = Some line ->
                  contains end_marker line = false) ->
  extract_section content start_marker (Some end_marker) =
    extract_section content start_marker None /\
  extract_section content start_marker (Some end_marker) =
    join LF (drop start_idx (split LF content)).
Proof.
  intros Hfirst Hnone.
  rewrite !(extract_section_found _ _ _ _ Hfirst). cbv zeta.
  unfold range. replace (start_idx + 1) with (S start_idx) by lia.
  destruct (find_end end_marker _ _) as [ei|] eqn:Eend; [exfalso|easy].
  apply find_end_Some in Eend as [(Hle & (line & Hline & Hc) & _) _].
  rewrite (Hnone ei line) in Hc; [discriminate|lia|exact Hline].
Qed.

Lemma section_end_marker_missing_witness :
  extract_section (join LF ["x"; "START"; "mid"; "END"; "y"])
                  "START" (Some "NOPE") =
    extract_section (join LF ["x"; "START"; "mid"; "END"; "y"]) "START" None /\
  extract_section (join LF ["x"; "START"; "mid"; "END"; "y"])
                  "START" (Some "NOPE") =
    join LF (drop 1 (split LF (join LF ["x"; "START"; "mid"; "END"; "y"]))).
Proof.
  apply (section_end_marker_missing
           (join LF ["x"; "START"; "mid"; "END"; "y"]) "START" "NOPE" 1).
  - split; [lia|]. split; [now exists "START"|].
    intros [|j] line Hj Hl; [|lia]. now injection Hl as <-.
  - intros j line Hj Hl.
    do 5 (destruct j as [|j]; [try lia; now injection Hl as <-|]).
    discriminate Hl.
Defined.

(** C4. When some line contains the start marker and there is no end marker,
    the result is every line from the first such line to the end of the
    document, joined with ['\n']. *)
Theorem section_to_end (content start_marker : string) (start_idx : nat) :
  first_at start_marker (split LF content) 0 start_idx ->
  extract_section content start_marker None =
    join LF (drop start_idx (split LF content)).
Proof.
  intros Hfirst. now rewrite (extract_section_found _ _ _ _ Hfirst).
Qed.

Lemma section_to_end_witness :
  extract_section (join LF ["fn a()"; "body"; "fn b()"]) "fn a" None =
    join LF (drop 0 (split LF (join LF ["fn a()"; "body"; "fn b()"]))).
Proof.
  apply (section_to_end (join LF ["fn a()"; "body"; "fn b()"]) "fn a" 0).
  split; [lia|]. split; [now exists "fn a()"|]. intros j line Hj. lia.
Defined.

(** ** The header harvester *)

Lemma startswith_cons (s : string) (d : ascii) (pre : string) :
  startswith s (String d pre) = true ->
  exists rest, s = String d rest /\ startswith rest pre = true.
Proof.
  unfold startswith. destruct s as [|c rest]; simpl; [discriminate|].
  destruct (ascii_dec d c) as [->|]; [|discriminate].
  intros H. now exists rest.
Qed.

Lemma lstrip_head (c : ascii) (rest : string) :
  isspace c = false -> lstrip (String c rest) = String c rest.
Proof. intros H. simpl. now rewrite H. Qed.

Lemma rstrip_head (c : ascii) (rest : string) :
  isspace c = false -> exists r, rstrip (String c rest) = String c r.
Proof.
  intros H. simpl. destruct (rstrip rest) as [|c' r'].
  - rewrite H. now exists EmptyString.
  - now exists (String c' r').
Qed.

Lemma rstrip_head2 (c d : ascii) (rest : string) :
  isspace c = false -> isspace d = false ->
  exists r, rstrip (String c (String d rest)) = String c (String d r).
Proof.
  intros Hc Hd. destruct (rstrip_head d rest Hd) as (r & Hr).
  exists r. change (rstrip (String c (String d rest)))
    with (match rstrip (String d rest) with
          | EmptyString => if isspace c then EmptyString
                           else String c EmptyString
          | r0 => String c r0
          end).
  now rewrite Hr.
Qed.

(** A line that is blank is passed over by the loop. *)
Lemma blank_line_passed (line : string) :
  blank_line line = true ->
  is_header_line line = false /\ breaks_scan line = false.
Proof.
  unfold blank_line, breaks_scan, is_header_line. intros Hblank.
  apply negb_true_iff in Hblank. rewrite Hblank. split; [|reflexivity].
  apply orb_false_iff. split.
  - destruct (startswith line "use ") eqn:E; [|reflexivity].
    apply startswith_cons in E as (rest & -> & _).
    unfold strip in Hblank. rewrite lstrip_head in Hblank by reflexivity.
    destruct (rstrip_head "u" rest eq_refl) as (r & Hr).
    rewrite Hr in Hblank. discriminate.
  - destruct (startswith line "//") eqn:E; [|reflexivity].
    apply startswith_cons in E as (rest & -> & _).
    unfold strip in Hblank. rewrite lstrip_head in Hblank by reflexivity.
    destruct (rstrip_head "/" rest eq_refl) as (r & Hr).
    rewrite Hr in Hblank. discriminate.
Qed.

(** So is a comment that follows leading whitespace. *)
Lemma indented_comment_passed (line : string) :
  indented_comment line = true ->
  is_header_line line = false /\ breaks_scan line = false.
Proof.
  unfold indented_comment, breaks_scan, is_header_line.
  intros H. apply andb_true_iff in H as [Hcol0 Hcomment].
  apply negb_true_iff in Hcol0. rewrite Hcol0. split.
  - rewrite orb_false_r.
    destruct (startswith line "use ") eqn:E; [|reflexivity].
    apply startswith_cons in E as (rest & -> & _).
    rewrite lstrip_head in Hcomment by reflexivity. discriminate.
  - apply startswith_cons in Hcomment as (r1 & Hl & Hcomment).
    apply startswith_cons in Hcomment as (r2 & -> & _).
    unfold strip. rewrite Hl.
    destruct (rstrip_head2 "/" "/" r2 eq_refl eq_refl) as (r & ->).
    destruct r; reflexivity.
Qed.

(** An import declaration that follows leading whitespace stops the loop. *)
Lemma indented_import_stops (line : string) :
  indented_import line = true ->
  is_header_line line = false /\ breaks_scan line = true.
Proof.
  unfold indented_import, breaks_scan, is_header_line.
  intros H. apply andb_true_iff in H as [Hcol0 Himport].
  apply negb_true_iff in Hcol0. rewrite Hcol0. split.
  - destruct (startswith line "//") eqn:E; [|reflexivity].
    apply startswith_cons in E as (rest & -> & _).
    rewrite lstrip_head in Himport by reflexivity. discriminate.
  - apply startswith_cons in Himport as (r1 & Hl & _).
    unfold strip. rewrite Hl.
    destruct (rstrip_head "u" r1 eq_refl) as (r & ->). reflexivity.
Qed.

Section Loop.

Lemma imports_loop_acc (lines : list string) :
  forall imports,
    imports_loop imports lines = (imports ++ imports_loop [] lines)%list.
Proof.
  induction lines as [|line rest IH]; intros imports; simpl.
  - now rewrite app_nil_r.
  - destruct (is_header_line line).
    + rewrite (IH (imports ++ [line])%list), (IH [line]).
      now rewrite <- app_assoc.
    + destruct (breaks_scan line); [now rewrite app_nil_r|apply IH].
Qed.

Lemma imports_loop_Forall (P : string -> Prop) (lines : list string) :
  forall imports,
    Forall P imports -> Forall P lines ->
    Forall P (imports_loop imports lines).
Proof.
  induction lines as [|line rest IH]; intros imports Himp Hlines; simpl.
  - exact Himp.
  - inversion Hlines as [|? ? Hline Hrest]; subst.
    destruct (is_header_line line).
    + apply IH; [|exact Hrest]. apply Forall_app. split; [exact Himp|].
      now constructor.
    + destruct (breaks_scan line); [exact Himp|now apply IH].
Qed.

Lemma imports_loop_header (lines : list string) :
  forall imports,
    Forall (fun l => is_header_line l = true) imports ->
    Forall (fun l => is_header_line l = true) (imports_loop imports lines).
Proof.
  induction lines as [|line rest IH]; intros imports Himp; simpl.
  - exact Himp.
  - destruct (is_header_line line) eqn:Hh.
    + apply IH. apply Forall_app. split; [exact Himp|]. now constructor.
    + destruct (breaks_scan line); [exact Himp|now apply IH].
Qed.

Lemma imports_loop_no_stop (lines : list string) :
  Forall (fun l => stops_scan l = false) lines ->
  imports_loop [] lines = List.filter is_header_line lines.
Proof.
  induction lines as [|line rest IH]; intros Hall; [reflexivity|].
  inversion Hall as [|? ? Hline Hrest]; subst. simpl.
  unfold stops_scan in Hline.
  destruct (is_header_line line); simpl in Hline.
  - rewrite imports_loop_acc. simpl. now rewrite IH.
  - rewrite Hline. now apply IH.
Qed.

Lemma filter_all (lines : list string) :
  Forall (fun l => is_header_line l = true) lines ->
  List.filter is_header_line lines = lines.
Proof.
  induction 1 as [|line rest Hline _ IH]; simpl; [reflexivity|].
  now rewrite Hline, IH.
Qed.

Lemma header_not_stop (lines : list string) :
  Forall (fun l => is_header_line l = true) lines ->
  Forall (fun l => stops_scan l = false) lines.
Proof.
  intros Hall. eapply Forall_impl; [exact Hall|].
  intros l Hl. unfold stops_scan. now rewrite Hl.
Qed.

Lemma imports_loop_passes (pre post : list string) (line : string) :
  is_header_line line = false -> breaks_scan line = false ->
  forall imports,
    imports_loop imports (pre ++ line :: post) =
    imports_loop imports (pre ++ post).
Proof.
  intros Hh Hb. induction pre as [|l pre IH]; intros imports; simpl.
  - now rewrite Hh, Hb.
  - destruct (is_header_line l); [apply IH|].
    destruct (breaks_scan l); [reflexivity|apply IH].
Qed.

Lemma imports_loop_stops (pre post : list string) (line : string) :
  is_header_line line = false -> breaks_scan line = true ->
  forall imports,
    imports_loop imports (pre ++ line :: post) = imports_loop imports pre.
Proof.
  intros Hh Hb. induction pre as [|l pre IH]; intros imports; simpl.
  - now rewrite Hh, Hb.
  - destruct (is_header_line l); [apply IH|].
    destruct (breaks_scan l); [reflexivity|apply IH].
Qed.

Lemma imports_loop_reaches (lines : list string) :
  forall i line imports,
    lines !! i = Some line -> is_header_line line = true ->
    (forall j l, j < i -> lines !! j = Some l -> stops_scan l = false) ->
    line ∈ imports_loop imports lines.
Proof.
  induction lines as [|l rest IH]; intros i line imports Hi Hh Hbefore;
    [discriminate|].
  destruct i as [|i]; simpl.
  - injection Hi as ->. rewrite Hh, imports_loop_acc.
    apply elem_of_app. left. apply elem_of_app. right. now left.
  - assert (stops_scan l = false) as Hl
        by (apply (Hbefore 0 l); [lia|reflexivity]).
    assert (line ∈ imports_loop (if is_header_line l
                                 then (imports ++ [l])%list else imports)
                                rest) as Hin.
    { apply (IH i); [exact Hi|exact Hh|].
      intros j l' Hj Hl'. apply (Hbefore (S j) l'); [lia|exact Hl']. }
    unfold stops_scan in Hl.
    destruct (is_header_line l); simpl in Hl; [exact Hin|].
    now rewrite Hl.
Qed.

End Loop.

(** The lines of a harvested header that is not empty are the lines the
    loop collected. *)
Lemma split_extract_imports (content : string) :
  imports_loop [] (split LF content) <> [] ->
  split LF (extract_imports content) = imports_loop [] (split LF content).
Proof.
  intros Hne. unfold extract_imports. apply split_join; [exact Hne|].
  apply imports_loop_Forall; [constructor|apply split_sep_free].
Qed.

(** C5, as amended.  In a document none of whose lines stops the loop,
    [extract_imports] returns the lines that begin with ["use "] or ["//"]
    at column 0, in order, joined with ['\n']; when every line begins so,
    that is the entire document, unchanged. *)
Theorem header_without_terminator (content : string) :
  Forall (fun l => stops_scan l = false) (split LF content) ->
  extract_imports content =
    join LF (List.filter is_header_line (split LF content)) /\
  (Forall (fun l => is_header_line l = true) (split LF content) ->
   extract_imports content = content).
Proof.
  intros Hnostop. unfold extract_imports.
  rewrite (imports_loop_no_stop _ Hnostop). split; [reflexivity|].
  intros Hall. rewrite (filter_all _ Hall). apply join_split.
Qed.

Lemma header_without_terminator_witness :
  extract_imports (join LF ["// top"; "use a"; "   "; "use b"]) =
    join LF (List.filter is_header_line
               (split LF (join LF ["// top"; "use a"; "   "; "use b"]))) /\
  extract_imports (join LF ["// top"; "use a"]) = join LF ["// top"; "use a"].
Proof.
  split.
  - apply (header_without_terminator
             (join LF ["// top"; "use a"; "   "; "use b"])).
    vm_compute. repeat constructor.
  - apply (header_without_terminator (join LF ["// top"; "use a"])).
    + vm_compute. repeat constructor.
    + vm_compute. repeat constructor.
Defined.

(** C5, as stated, fails on a document that is one blank line: no line
    terminates the scan, in the wording of the specification and in the
    code alike, and the harvested header is empty, not the document. *)
Lemma header_without_terminator_counterexample :
  Forall (fun l => spec_terminates l = false) (split LF " ") /\
  Forall (fun l => stops_scan l = false) (split LF " ") /\
  extract_imports " " <> " ".
Proof.
  split; [|split].
  - vm_compute. repeat constructor.
  - vm_compute. repeat constructor.
  - vm_compute. discriminate.
Qed.

(** C6, as amended.  A line that begins with ["use "] at column 0, with no
    left-trimming, and that comes before the first line on which the loop
    stops, is a line of the harvested header. *)
Theorem import_line_harvested (content : string) (i : nat) (line : string) :
  split LF content !! i = Some line ->
  startswith line "use " = true ->
  (forall j l, j < i -> split LF content !! j = Some l ->
               stops_scan l = false) ->
  line ∈ split LF (extract_imports content).
Proof.
  intros Hi Huse Hbefore.
  assert (line ∈ imports_loop [] (split LF content)) as Hin.
  { apply (imports_loop_reaches _ i); [exact Hi| |exact Hbefore].
    unfold is_header_line. now rewrite Huse. }
  rewrite split_extract_imports; [exact Hin|].
  intros Hnil. rewrite Hnil in Hin. now apply elem_of_nil in Hin.
Qed.

Lemma import_line_harvested_witness :
  "use b" ∈ split LF (extract_imports (join LF ["use a"; "use b"; "fn f"])).
Proof.
  apply (import_line_harvested (join LF ["use a"; "use b"; "fn f"]) 1).
  - reflexivity.
  - reflexivity.
  - intros [|j] l Hj Hl; [|lia]. now injection Hl as <-.
Defined.

(** C6, as stated, fails on an import declaration that follows leading
    whitespace: it begins with the token after left-trimming, no line of the
    document terminates the scan in the wording of the specification, and it
    is not in the harvested header. *)
Lemma import_line_harvested_counterexample :
  split LF " use a" !! 0 = Some " use a" /\
  spec_import_line " use a" = true /\
  Forall (fun l => spec_terminates l = false) (split LF " use a") /\
  ~ " use a" ∈ split LF (extract_imports " use a").
Proof.
  split; [reflexivity|]. split; [reflexivity|]. split.
  - vm_compute. repeat constructor.
  - vm_compute. intros Hin. apply list_elem_of_singleton in Hin.
    discriminate Hin.
Qed.

(** C7. Harvesting is idempotent: [extract_imports] applied to a text it
    returned gives that text back. *)
Theorem extract_imports_idempotent (content : string) :
  extract_imports (extract_imports content) = extract_imports content.
Proof.
  destruct (imports_loop [] (split LF content)) as [|l imports] eqn:E.
  - assert (extract_imports content = EmptyString) as ->
        by (unfold extract_imports; now rewrite E).
    reflexivity.
  - assert (Forall (fun l => is_header_line l = true)
                   (imports_loop [] (split LF content))) as Hheader
        by (apply imports_loop_header; constructor).
    unfold extract_imports at 1.
    rewrite split_extract_imports by (rewrite E; discriminate).
    rewrite (imports_loop_no_stop _ (header_not_stop _ Hheader)).
    now rewrite (filter_all _ Hheader).
Qed.

(** C10, as amended.  The harvested header is empty or each of its lines
    begins with ["use "] or ["//"] at column 0.  A line that is entirely
    whitespace and a comment that follows leading whitespace are passed
    over: the header is the one of the document without that line.  An
    import declaration that follows leading whitespace stops the scan: the
    header is the one of the lines before it.  The header need not be a
    prefix of the document's lines. *)
Theorem header_lines_shape :
  (forall (content : string) (pre post : list string) (line : string),
      split LF content = (pre ++ line :: post)%list ->
      (extract_imports content = EmptyString \/
       Forall (fun l => is_header_line l = true)
              (split LF (extract_imports content))) /\
      (blank_line line = true \/ indented_comment line = true ->
       extract_imports content = join LF (imports_loop [] (pre ++ post))) /\
      (indented_import line = true ->
       extract_imports content = join LF (imports_loop [] pre))) /\
  (exists doc : string,
      ~ split LF (extract_imports doc) `prefix_of` split LF doc).
Proof.
  split.
  - intros content pre post line Hlines. split; [|split].
    + destruct (imports_loop [] (split LF content)) as [|l imports] eqn:E.
      * left. unfold extract_imports. now rewrite E.
      * right. rewrite split_extract_imports by (rewrite E; discriminate).
        apply imports_loop_header. constructor.
    + intros Hline. unfold extract_imports. rewrite Hlines.
      assert (is_header_line line = false /\ breaks_scan line = false)
        as [Hh Hb]
          by (destruct Hline;
              [now apply blank_line_passed|now apply indented_comment_passed]).
      now rewrite (imports_loop_passes _ _ _ Hh Hb).
    + intros Hline. unfold extract_imports. rewrite Hlines.
      destruct (indented_import_stops _ Hline) as [Hh Hb].
      now rewrite (imports_loop_stops _ _ _ Hh Hb).
  - exists (join LF ["use a"; EmptyString; "use b"]). vm_compute.
    intros (k & Hk). discriminate Hk.
Qed.

Lemma header_lines_shape_witness :
  extract_imports (join LF ["use a"; "  // note"; "use b"]) =
    join LF (imports_loop [] (["use a"] ++ ["use b"])) /\
  extract_imports (join LF ["use a"; "  use b"; "use c"]) =
    join LF (imports_loop [] ["use a"]).
Proof.
  split.
  - apply (proj1 header_lines_shape
             (join LF ["use a"; "  // note"; "use b"])
             ["use a"] ["use b"] "  // note" eq_refl).
    right. reflexivity.
  - apply (proj1 header_lines_shape
             (join LF ["use a"; "  use b"; "use c"])
             ["use a"] ["use c"] "  use b" eq_refl).
    reflexivity.
Defined.

(** C10, as stated, fails on an import declaration that follows leading
    whitespace: it is not passed over, the scan stops on it and the import
    line after it is lost. *)
Lemma header_lines_shape_counterexample :
  indented_import " use a" = true /\
  split LF (join LF [" use a"; "use b"]) = ([] ++ " use a" :: ["use b"])%list /\
  extract_imports (join LF [" use a"; "use b"]) <>
    join LF (imports_loop [] ([] ++ ["use b"])).
Proof.
  split; [reflexivity|]. split; [reflexivity|].
  vm_compute. discriminate.
Qed.

(** ** The orchestrator *)

(** What a run of [main] does when the source file exists: five lines
    printed, the parent directories made, one file written. *)
Lemma main_runs (base_dir : path) (w : World) (content : string) :
  files w !! (base_dir ++ ["src"; "ffui_core"; "engine.rs"])%list
    = Some content ->
  main base_dir w =
    (mkWorld
       (<[(base_dir ++ ["src"; "ffui_core"; "engine"; "mod.rs"])%list
          := mod_content]> (files w))
       (makedirs (dirname (base_dir ++ ["src"; "ffui_core"; "engine";
                                        "mod.rs"])%list) (dirs w))
       (stdout w ++
          ["Reading "
             +:+ path_str (base_dir ++ ["src"; "ffui_core"; "engine.rs"])%list
             +:+ "...";
           "Creating engine/mod.rs...";
           "Created engine/mod.rs";
           "Manual splitting required due to file complexity.";
           "Please continue with manual file extraction or use a proper AST parser."])%list,
     inr tt).
Proof.
  destruct w as [fs ds out]. intros Hsrc. unfold main.
  cbv beta iota zeta delta [mbind IO_bind print read_file write_file
                            files dirs stdout] in Hsrc |- *.
  rewrite Hsrc. rewrite <- !app_assoc. reflexivity.
Qed.

(** C9. The manifest that [main] writes does not depend on the source text:
    two runs on source files of any two contents both complete and leave the
    same manifest, the literal [mod_content]. *)
Theorem manifest_independent_of_source (base_dir : path) (w1 w2 : World)
    (content1 content2 : string) :
  files w1 !! (base_dir ++ ["src"; "ffui_core"; "engine.rs"])%list
    = Some content1 ->
  files w2 !! (base_dir ++ ["src"; "ffui_core"; "engine.rs"])%list
    = Some content2 ->
  exists w1' w2',
    main base_dir w1 = (w1', inr tt) /\
    main base_dir w2 = (w2', inr tt) /\
    manifest_of base_dir w1' = Some mod_content /\
    manifest_of base_dir w2' = manifest_of base_dir w1'.
Proof.
  intros H1 H2.
  rewrite (main_runs _ _ _ H1), (main_runs _ _ _ H2).
  eexists _, _. split; [reflexivity|]. split; [reflexivity|].
  unfold manifest_of. cbn [files]. rewrite !lookup_insert_eq. easy.
Qed.

Lemma manifest_independent_of_source_witness :
  exists w1' w2',
    main ["repo"] (mkWorld {[ ["repo"; "src"; "ffui_core"; "engine.rs"]
                              := "fn spawn_worker() {}" ]} ∅ []) =
      (w1', inr tt) /\
    main ["repo"] (mkWorld {[ ["repo"; "src"; "ffui_core"; "engine.rs"]
                              := "use a;" ]} ∅ []) =
      (w2', inr tt) /\
    manifest_of ["repo"] w1' = Some mod_content /\
    manifest_of ["repo"] w2' = manifest_of ["repo"] w1'.
Proof.
  apply (manifest_independent_of_source ["repo"] _ _
           "fn spawn_worker() {}" "use a;").
  - cbn [files app]. apply lookup_singleton_eq.
  - cbn [files app]. apply lookup_singleton_eq.
Defined.

(** * Further properties of the script *)

(** ** Substring tests and line indexing *)

Lemma prefix_nil (s : string) : String.prefix EmptyString s = true.
Proof. destruct s; reflexivity. Qed.

Lemma prefix_cons (a b : ascii) (p s : string) :
  String.prefix (String a p) (String b s) =
  if ascii_dec a b then String.prefix p s else false.
Proof. simpl. destruct (ascii_dec a b); reflexivity. Qed.

Lemma prefix_append (p : string) :
  forall s, String.prefix p s = true <-> exists b, s = p +:+ b.
Proof.
  induction p as [|a p IH]; intros s.
  - rewrite prefix_nil. split; [now exists s|reflexivity].
  - destruct s as [|b s].
    + split; [discriminate|]. intros (x & Hx). discriminate Hx.
    + rewrite prefix_cons. destruct (ascii_dec a b) as [->|Hne].
      * rewrite IH. split; intros (x & Hx); exists x.
        -- simpl. now rewrite Hx.
        -- simpl in Hx. now injection Hx.
      * split; [discriminate|]. intros (x & Hx). simpl in Hx.
        injection Hx as Hab _. now subst.
Qed.

Lemma contains_nil (needle : string) :
  contains needle EmptyString = String.prefix needle EmptyString.
Proof. unfold contains. apply orb_false_r. Qed.

Lemma contains_cons (needle : string) (c : ascii) (hay : string) :
  contains needle (String c hay) =
  String.prefix needle (String c hay) || contains needle hay.
Proof. reflexivity. Qed.

(** X1. The test [marker in line] holds exactly when the line is some text,
    then the marker, then some text: containment, not equality. *)
Theorem contains_substring (needle hay : string) :
  contains needle hay = true <->
  exists before after, hay = before +:+ needle +:+ after.
Proof.
  induction hay as [|c hay IH].
  - rewrite contains_nil, prefix_append. split.
    + intros (b & Hb). now exists EmptyString, b.
    + intros (before & after & H). destruct before; [now exists after|].
      discriminate H.
  - rewrite contains_cons, orb_true_iff, IH, prefix_append. split.
    + intros [(b & Hb)|(before & after & H)].
      * now exists EmptyString, b.
      * exists (String c before), after. simpl. now rewrite H.
    + intros (before & after & H). destruct before as [|c' before].
      * left. now exists after.
      * right. exists before, after. simpl in H. now injection H.
Qed.

(** X2. Splitting what [join] made of lines that hold no line break gives the
    lines back, provided there is at least one line. *)
Theorem split_join_lines (lines : list string) :
  lines <> [] ->
  Forall (fun line => sep_free LF line = true) lines ->
  split LF (join LF lines) = lines.
Proof. apply split_join. Qed.

Lemma split_join_lines_witness :
  split LF (join LF ["use a"; EmptyString; "fn f"]) =
    ["use a"; EmptyString; "fn f"].
Proof.
  apply (split_join_lines ["use a"; EmptyString; "fn f"]).
  - discriminate.
  - repeat constructor.
Defined.

(** X3. A text has one line more than it has line breaks, and none of its lines
    holds a line break. *)
Theorem split_line_count (text : string) :
  length (split LF text) = S (count_sep LF text) /\
  Forall (fun line => sep_free LF line = true) (split LF text).
Proof.
  split; [|apply split_sep_free].
  induction text as [|c text IH]; [reflexivity|]. simpl.
  destruct (Ascii.eqb c LF); simpl; [now rewrite IH|].
  destruct (split LF text) as [|field fields]; simpl in *; lia.
Qed.

(** ** More on the section extractor *)

Lemma slice_to_end {A} (l : list A) (a : nat) :
  slice l a (length l) = drop a l.
Proof. unfold slice. now rewrite firstn_all. Qed.

Lemma slice_sep_free (lines : list string) (a b : nat) :
  Forall (fun line => sep_free LF line = true) lines ->
  Forall (fun line => sep_free LF line = true) (slice lines a b).
Proof. intros H. unfold slice. now apply Forall_drop, Forall_take. Qed.

Lemma slice_middle {A} (l : list A) (a b : nat) :
  a <= b -> l = (take a l ++ slice l a b ++ drop b l)%list.
Proof.
  intros Hab. unfold slice. rewrite app_assoc.
  replace (take a l) with (take a (take b l))
    by (rewrite take_take; f_equal; lia).
  now rewrite take_drop, take_drop.
Qed.

(** The outcomes of [extract_section]: the marker is absent and the result
    is empty, or the result is the lines of a non-empty range that begins
    at the first line with the start marker and whose later lines do not
    contain the end marker. *)
Lemma extract_section_cases (content start_marker : string)
    (end_marker : option string) :
  (absent start_marker (split LF content) /\
   extract_section content start_marker end_marker = EmptyString) \/
  exists si ei,
    first_at start_marker (split LF content) 0 si /\
    si < ei <= length (split LF content) /\
    extract_section content start_marker end_marker =
      join LF (slice (split LF content) si ei) /\
    forall e, end_marker = Some e ->
      forall j line, si < j < ei -> split LF content !! j = Some line ->
                     contains e line = false.
Proof.
  destruct (find_start start_marker (split LF content) 0) as [si|] eqn:E.
  - right. apply find_start_Some in E as (i & -> & Hfirst). simpl.
    assert (i < length (split LF content)) as Hlt.
    { destruct Hfirst as (_ & (l & Hl & _) & _).
      now apply lookup_lt_Some in Hl. }
    rewrite (extract_section_found _ _ _ _ Hfirst). cbv zeta.
    destruct end_marker as [e|].
    + unfold range. replace (i + 1) with (S i) by lia.
      destruct (find_end e _ _) as [ei|] eqn:Eend.
      * apply find_end_Some in Eend as [(Hle & _ & Hb) Hei].
        exists i, ei. split; [exact Hfirst|]. split; [lia|].
        split; [reflexivity|]. intros e' [= <-] j line Hj Hl.
        apply (Hb j line); [lia|exact Hl].
      * exists i, (length (split LF content)). split; [exact Hfirst|].
        split; [lia|]. split; [now rewrite slice_to_end|].
        intros e' [= <-] j line Hj Hl.
        apply (find_end_None _ _ _ _ Eend) with (j := j); [lia|lia|exact Hl].
    + exists i, (length (split LF content)). split; [exact Hfirst|].
      split; [lia|]. split; [now rewrite slice_to_end|]. discriminate.
  - left. apply find_start_None in E. split; [exact E|].
    unfold extract_section.
    now rewrite (proj2 (find_start_None _ _ 0) E).
Qed.

(** The lines of a section that was found are the lines of its range. *)
Lemma split_section (lines : list string) (si ei : nat) :
  Forall (fun line => sep_free LF line = true) lines ->
  si < ei <= length lines ->
  split LF (join LF (slice lines si ei)) = slice lines si ei.
Proof.
  intros Hfree Hrange. apply split_join; [|now apply slice_sep_free].
  intros Hnil. pose proof (slice_lookup lines si ei 0) as H0.
  rewrite Hnil, Nat.add_0_r, decide_True in H0 by lia.
  symmetry in H0. apply lookup_ge_None in H0. lia.
Qed.

(** X4. When some line contains the start marker, the section is not empty and
    its first line contains the start marker. *)
Theorem section_starts_at_marker (content start_marker : string)
    (end_marker : option string) :
  ~ absent start_marker (split LF content) ->
  exists line rest,
    split LF (extract_section content start_marker end_marker)
      = line :: rest /\
    contains start_marker line = true.
Proof.
  intros Hpresent.
  destruct (extract_section_cases content start_marker end_marker)
    as [[Habs _]|(si & ei & Hfirst & Hrange & -> & _)]; [contradiction|].
  rewrite split_section by (apply split_sep_free || exact Hrange).
  destruct Hfirst as (_ & (line & Hline & Hc) & _).
  destruct (slice_head (split LF content) si ei line) as (rest & ->);
    [lia|exact Hline|].
  now exists line, rest.
Qed.

Lemma section_starts_at_marker_witness :
  exists line rest,
    split LF (extract_section (join LF ["x"; "fn a()"; "body"]) "fn a" None)
      = line :: rest /\
    contains "fn a" line = true.
Proof.
  apply (section_starts_at_marker (join LF ["x"; "fn a()"; "body"])
                                  "fn a" None).
  intros Habs. vm_compute in Habs.
  inversion Habs as [|? ? _ Hrest]. inversion Hrest as [|? ? Hc _].
  discriminate Hc.
Defined.

(** X5. With an end marker, no line of the section after its first line
    contains the end marker, whether the end marker was found or not. *)
Theorem section_excludes_end_marker (content start_marker end_marker : string)
    (k : nat) (line : string) :
  0 < k ->
  split LF (extract_section content start_marker (Some end_marker)) !! k
    = Some line ->
  contains end_marker line = false.
Proof.
  intros Hk.
  destruct (extract_section_cases content start_marker (Some end_marker))
    as [[_ ->]|(si & ei & _ & Hrange & -> & Hclean)].
  - destruct k; [lia|discriminate].
  - rewrite split_section by (apply split_sep_free || exact Hrange).
    rewrite slice_lookup. destruct (decide (si + k < ei)); [|discriminate].
    intros Hline. apply (Hclean end_marker eq_refl (si + k) line);
      [lia|exact Hline].
Qed.

Lemma section_excludes_end_marker_witness :
  contains "END" "mid" = false.
Proof.
  apply (section_excludes_end_marker
           (join LF ["x"; "START END"; "mid"; "END"; "y"]) "START" "END" 1).
  - lia.
  - reflexivity.
Defined.

Lemma find_end_clean (marker : string) (lines : list string) :
  forall n a,
    (forall j line, a <= j -> lines !! j = Some line ->
                    contains marker line = false) ->
    find_end marker lines (seq a n) = None.
Proof.
  induction n as [|n IH]; intros a Hclean; simpl; [reflexivity|].
  destruct (lines !! a) as [line|] eqn:Hl; [|reflexivity].
  rewrite (Hclean a line) by (lia || exact Hl).
  apply IH. intros j l Hj. apply Hclean. lia.
Qed.

Lemma extract_section_empty (start_marker : string)
    (end_marker : option string) :
  extract_section EmptyString start_marker end_marker = EmptyString.
Proof.
  unfold extract_section. cbn [split find_start].
  destruct (contains start_marker EmptyString); [|reflexivity].
  destruct end_marker; reflexivity.
Qed.

(** X6. Extracting is idempotent: the section of a section, for the same
    markers, is that section. *)
Theorem extract_section_idempotent (content start_marker : string)
    (end_marker : option string) :
  extract_section (extract_section content start_marker end_marker)
                  start_marker end_marker =
  extract_section content start_marker end_marker.
Proof.
  destruct (extract_section_cases content start_marker end_marker)
    as [[_ ->]|(si & ei & Hfirst & Hrange & Hres & Hclean)].
  - apply extract_section_empty.
  - rewrite Hres.
    pose proof (split_section (split LF content) si ei
                  (split_sep_free LF content) Hrange) as Hsplit.
    destruct Hfirst as (_ & (line & Hline & Hc) & _).
    destruct (slice_head (split LF content) si ei line) as (rest & Hhead);
      [lia|exact Hline|].
    unfold extract_section at 1. rewrite Hsplit, Hhead.
    cbn [find_start]. rewrite Hc. rewrite <- Hhead.
    destruct end_marker as [e|]; [|reflexivity].
    unfold range. rewrite find_end_clean; [reflexivity|].
    intros j l Hj. rewrite slice_lookup.
    destruct (decide (si + j < ei)); [|discriminate].
    intros Hl. apply (Hclean e eq_refl (si + j) l); [lia|exact Hl].
Qed.

Lemma prefix_refl (s : string) : String.prefix s s = true.
Proof.
  apply prefix_append. exists EmptyString.
  induction s as [|c s IH]; [reflexivity|].
  change (String c s = String c (s +:+ EmptyString)). now rewrite <- IH.
Qed.

Lemma append_assoc (a b c : string) : (a +:+ b) +:+ c = a +:+ (b +:+ c).
Proof.
  induction a as [|x a IH]; [reflexivity|].
  change (String x ((a +:+ b) +:+ c) = String x (a +:+ (b +:+ c))).
  now rewrite IH.
Qed.

Lemma join_take_prefix (lines : list string) :
  forall n, String.prefix (join LF (take n lines)) (join LF lines) = true.
Proof.
  induction lines as [|p rest IH]; intros n.
  - rewrite take_nil. reflexivity.
  - destruct n as [|n]; [apply prefix_nil|]. cbn [take].
    destruct rest as [|q rest].
    + rewrite take_nil. apply prefix_refl.
    + destruct n as [|n].
      * cbn [take]. apply prefix_append.
        now exists (String LF (join LF (q :: rest))).
      * specialize (IH (S n)). cbn [take] in IH |- *.
        rewrite !join_cons_cons. apply prefix_append in IH as (b & Hb).
        apply prefix_append. exists b. rewrite Hb.
        rewrite append_assoc. reflexivity.
Qed.

(** X7. An end marker can only shorten a section: the section with an end
    marker is a prefix of the section without one. *)
Theorem section_bounded_is_prefix (content start_marker end_marker : string) :
  String.prefix (extract_section content start_marker (Some end_marker))
                (extract_section content start_marker None) = true.
Proof.
  destruct (extract_section_cases content start_marker (Some end_marker))
    as [[Habs ->]|(si & ei & Hfirst & Hrange & -> & _)]; [apply prefix_nil|].
  rewrite (extract_section_found _ _ None _ Hfirst). cbv zeta.
  unfold slice. replace ei with (si + (ei - si)) by lia.
  rewrite <- take_drop_commute. apply join_take_prefix.
Qed.

(** X8. Unless the start marker is absent, the lines of the section are a
    contiguous run of the document's lines, and no line before the run
    contains the start marker. *)
Theorem section_lines_contiguous (content start_marker : string)
    (end_marker : option string) :
  absent start_marker (split LF content) \/
  exists before after,
    split LF content =
      (before
         ++ split LF (extract_section content start_marker end_marker)
         ++ after)%list /\
    absent start_marker before.
Proof.
  destruct (extract_section_cases content start_marker end_marker)
    as [[Habs _]|(si & ei & Hfirst & Hrange & -> & _)]; [now left|right].
  rewrite split_section by (apply split_sep_free || exact Hrange).
  exists (take si (split LF content)), (drop ei (split LF content)).
  split; [apply slice_middle; lia|].
  destruct Hfirst as (_ & _ & Hbefore).
  apply Forall_lookup. intros j line Hj.
  apply lookup_take_Some in Hj as [Hj Hlt].
  apply (Hbefore j line); [lia|exact Hj].
Qed.

Lemma contains_empty_needle (hay : string) : contains EmptyString hay = true.
Proof. destruct hay; reflexivity. Qed.

(** X9. The empty start marker matches the first line: without an end marker
    the whole document comes back. *)
Theorem section_of_empty_marker (content : string) :
  extract_section content EmptyString None = content.
Proof.
  unfold extract_section. pose proof (split_not_nil LF content) as Hne.
  pose proof (join_split LF content) as Hjoin.
  destruct (split LF content) as [|line rest]; [contradiction|].
  cbn [find_start]. now rewrite contains_empty_needle.
Qed.

(** ** More on the header harvester *)

Lemma imports_loop_sublist (lines : list string) :
  imports_loop [] lines `sublist_of` lines.
Proof.
  induction lines as [|line rest IH]; simpl; [constructor|].
  destruct (is_header_line line).
  - rewrite imports_loop_acc. simpl. now apply sublist_skip.
  - destruct (breaks_scan line); [apply sublist_nil_l|now apply sublist_cons].
Qed.

(** X10. The harvested header is empty, or its lines are lines of the document
    in their original order and with their original text. *)
Theorem header_is_subsequence (content : string) :
  extract_imports content = EmptyString \/
  split LF (extract_imports content) `sublist_of` split LF content.
Proof.
  destruct (imports_loop [] (split LF content)) as [|l imports] eqn:E.
  - left. unfold extract_imports. now rewrite E.
  - right. rewrite split_extract_imports by (rewrite E; discriminate).
    apply imports_loop_sublist.
Qed.

(** X11. When the scan stops at line [k], the header is made of the lines before
    [k] that begin with ["use "] or ["//"] at column 0: line [k] and all the
    lines after it have no influence. *)
Theorem header_up_to_first_stop (content : string) (k : nat) (line : string) :
  split LF content !! k = Some line ->
  stops_scan line = true ->
  (forall j l, j < k -> split LF content !! j = Some l ->
               stops_scan l = false) ->
  extract_imports content =
    join LF (List.filter is_header_line (take k (split LF content))).
Proof.
  intros Hk Hstop Hbefore. unfold extract_imports.
  rewrite <- (take_drop_middle _ _ _ Hk) at 1.
  unfold stops_scan in Hstop. apply andb_true_iff in Hstop as [Hh Hb].
  apply negb_true_iff in Hh.
  rewrite (imports_loop_stops _ _ _ Hh Hb).
  rewrite imports_loop_no_stop; [reflexivity|].
  apply Forall_lookup. intros j l Hj.
  apply lookup_take_Some in Hj as [Hj Hlt]. now apply (Hbefore j l).
Qed.

Lemma header_up_to_first_stop_witness :
  extract_imports (join LF ["// c"; "use a"; "fn f"; "use b"]) =
    join LF (List.filter is_header_line
               (take 2 (split LF (join LF ["// c"; "use a"; "fn f";
                                           "use b"])))).
Proof.
  apply (header_up_to_first_stop
           (join LF ["// c"; "use a"; "fn f"; "use b"]) 2 "fn f").
  - reflexivity.
  - reflexivity.
  - intros j l Hj Hl.
    do 2 (destruct j as [|j]; [now injection Hl as <-|]). lia.
Defined.

(** ** More on the orchestrator and the file primitives *)

(** What a run of [main] does when the source file is missing: one line
    printed, then the error of [read_file]. *)
Lemma main_fails (base_dir : path) (w : World) :
  files w !! (base_dir ++ ["src"; "ffui_core"; "engine.rs"])%list = None ->
  main base_dir w =
    (mkWorld (files w) (dirs w)
       (stdout w ++
          ["Reading "
             +:+ path_str (base_dir ++ ["src"; "ffui_core"; "engine.rs"])%list
             +:+ "..."])%list,
     inl (FileNotFoundError
            (base_dir ++ ["src"; "ffui_core"; "engine.rs"])%list)).
Proof.
  destruct w as [fs ds out]. intros Hsrc. unfold main.
  cbv beta iota zeta delta [mbind IO_bind print read_file write_file
                            files dirs stdout] in Hsrc |- *.
  now rewrite Hsrc.
Qed.

Lemma source_is_not_manifest (base_dir : path) :
  (base_dir ++ ["src"; "ffui_core"; "engine.rs"])%list <>
  (base_dir ++ ["src"; "ffui_core"; "engine"; "mod.rs"])%list.
Proof. intros H. apply app_inv_head in H. discriminate H. Qed.

(** X12. Without the source file, [main] raises the error of [read_file] for the
    source path, having printed one line; it creates no directory and
    writes no file. *)
Theorem main_missing_source (base_dir : path) (w : World) :
  files w !! (base_dir ++ ["src"; "ffui_core"; "engine.rs"])%list = None ->
  exists w',
    main base_dir w =
      (w', inl (FileNotFoundError
                  (base_dir ++ ["src"; "ffui_core"; "engine.rs"])%list)) /\
    files w' = files w /\ dirs w' = dirs w /\
    length (stdout w') = S (length (stdout w)).
Proof.
  intros Hsrc. rewrite (main_fails _ _ Hsrc). eexists. split; [reflexivity|].
  cbn [files dirs stdout]. rewrite length_app. simpl.
  split; [reflexivity|]. split; [reflexivity|lia].
Qed.

Lemma main_missing_source_witness :
  exists w',
    main ["repo"] (mkWorld ∅ ∅ []) =
      (w', inl (FileNotFoundError ["repo"; "src"; "ffui_core"; "engine.rs"]))
    /\ files w' = ∅ /\ dirs w' = ∅ /\ length (stdout w') = 1.
Proof.
  apply (main_missing_source ["repo"] (mkWorld ∅ ∅ [])).
  apply lookup_empty.
Defined.

(** X13. Whether it completes or raises, [main] leaves every file other than the
    manifest as it was; the source file is one of them. *)
Theorem main_touches_only_manifest (base_dir : path) (w : World) (q : path) :
  q <> (base_dir ++ ["src"; "ffui_core"; "engine"; "mod.rs"])%list ->
  files (world_after (main base_dir w)) !! q = files w !! q.
Proof.
  intros Hq.
  destruct (files w !! (base_dir ++ ["src"; "ffui_core"; "engine.rs"])%list)
    as [content|] eqn:Hsrc.
  - rewrite (main_runs _ _ _ Hsrc). cbn [world_after fst files].
    now apply lookup_insert_ne.
  - now rewrite (main_fails _ _ Hsrc).
Qed.

Lemma main_touches_only_manifest_witness :
  files (world_after
           (main ["repo"]
                 (mkWorld {[ ["repo"; "src"; "ffui_core"; "engine.rs"]
                             := "fn f() {}" ]} ∅ [])))
    !! ["repo"; "src"; "ffui_core"; "engine.rs"] =
  files (mkWorld {[ ["repo"; "src"; "ffui_core"; "engine.rs"]
                    := "fn f() {}" ]} ∅ [])
    !! ["repo"; "src"; "ffui_core"; "engine.rs"].
Proof.
  apply (main_touches_only_manifest ["repo"]).
  discriminate.
Defined.

(** X14. Running [main] again changes nothing but the console: the second run
    completes too and leaves the files and directories of the first. *)
Theorem main_rerun (base_dir : path) (w : World) (content : string) :
  files w !! (base_dir ++ ["src"; "ffui_core"; "engine.rs"])%list
    = Some content ->
  exists w1 w2,
    main base_dir w = (w1, inr tt) /\
    main base_dir w1 = (w2, inr tt) /\
    files w2 = files w1 /\ dirs w2 = dirs w1.
Proof.
  intros Hsrc. rewrite (main_runs _ _ _ Hsrc). eexists _, _.
  split; [reflexivity|].
  erewrite main_runs.
  - split; [reflexivity|]. cbn [files dirs].
    split; [apply insert_insert_eq|]. unfold makedirs.
    now rewrite <- (assoc_L (∪)), (idemp_L (∪)).
  - cbn [files]. rewrite lookup_insert_ne; [exact Hsrc|].
    intros H. symmetry in H. now apply source_is_not_manifest in H.
Qed.

Lemma main_rerun_witness :
  exists w1 w2,
    main ["repo"] (mkWorld {[ ["repo"; "src"; "ffui_core"; "engine.rs"]
                              := "fn f() {}" ]} ∅ []) = (w1, inr tt) /\
    main ["repo"] w1 = (w2, inr tt) /\
    files w2 = files w1 /\ dirs w2 = dirs w1.
Proof.
  apply (main_rerun ["repo"] _ "fn f() {}").
  cbn [files app]. apply lookup_singleton_eq.
Defined.



